(** * ServiceTrackerCustomizer: trait selection and behaviour bundles

    A shallow embedding of [src/core/include/usServiceTrackerCustomizer.h]
    (CppMicroServices).  The header has two layers, and so has this file:

    - a static layer, the class template [ServiceTrackerCustomizer<S,T,Enable>]
      with its primary template, three partial specialisations and one explicit
      specialisation; it is embedded as functions over a small universe of C++
      types ([CppType]) together with the [<type_traits>] predicates the header
      uses;
    - a dynamic layer, the four nested [TypeTraits] structs with their static
      member functions [IsValid], [DefaultValue], [Dispose] and
      [ConvertToTrackedType]; each is embedded in a module of its own, with
      references ([T&]) as locations of an explicit store and [throw] as a
      constructor of the result type. *)

From stdpp Require Import base decidable option strings gmap fin_maps.

Local Open Scope string_scope.
Local Open Scope nat_scope.
Local Open Scope list_scope.

(** ** The static layer: C++ types and the type traits used by the header *)

(** How a class type converts to [bool]: not at all, implicitly
    ([operator bool], so [std::is_convertible<T,bool>] holds) or only
    explicitly ([explicit operator bool], so only
    [std::is_constructible<bool,T>] holds). *)
Inductive BoolConversion : Type :=
  | NoBoolConversion
  | ImplicitBool
  | ExplicitBool.

Global Instance BoolConversion_eq_dec : EqDecision BoolConversion.
Proof. solve_decision. Defined.

(** What the header can observe of a user's class declaration. *)
Record ClassDecl : Type := mkClass {
  class_name : string;
  default_constructible : bool;
  bool_conversion : BoolConversion
}.

Global Instance ClassDecl_eq_dec : EqDecision ClassDecl.
Proof. solve_decision. Defined.

(** The types that can be passed for [S], [T] and [Enable]: [void], [bool],
    an arithmetic type, class types and pointers to any of these
    (cv-unqualified; reference types cannot be tracked, [S*] would be
    ill-formed). *)
Inductive CppType : Type :=
  | TVoid
  | TBool
  | TInt
  | TClass (c : ClassDecl)
  | TPtr (pointee : CppType).

Global Instance CppType_eq_dec : EqDecision CppType.
Proof. solve_decision. Defined.

(** [std::is_pointer<T>::value] *)
Definition is_pointer (T : CppType) : bool :=
  match T with
  | TPtr _ => true
  | _ => false
  end.

(** [std::is_same<A,B>::value] *)
Definition is_same (A B : CppType) : bool := bool_decide (A = B).

(** [std::is_constructible<T>::value]: [T] can be value-initialised. *)
Definition is_constructible (T : CppType) : bool :=
  match T with
  | TVoid => false
  | TBool | TInt | TPtr _ => true
  | TClass c => default_constructible c
  end.

(** [std::is_convertible<T,bool>::value] *)
Definition is_convertible_bool (T : CppType) : bool :=
  match T with
  | TVoid => false
  | TBool | TInt | TPtr _ => true
  | TClass c => bool_decide (bool_conversion c = ImplicitBool)
  end.

(** [std::is_constructible<bool,T>::value] *)
Definition is_constructible_bool_from (T : CppType) : bool :=
  match T with
  | TVoid => false
  | TBool | TInt | TPtr _ => true
  | TClass c => negb (bool_decide (bool_conversion c = NoBoolConversion))
  end.

(** [std::enable_if<B>::type]: the member [type] is [void] when [B] holds and
    does not exist otherwise (a substitution failure). *)
Definition enable_if (B : bool) : option CppType :=
  if B then Some TVoid else None.

(** ** The selection conditions of the four specialisations *)

(** Lines 85-86: [is_pointer<T> && !is_same<S*,T>]. *)
Definition cond_a (S T : CppType) : bool :=
  is_pointer T && negb (is_same (TPtr S) T).

(** Lines 170-171: the pattern [<S, S*, void>]. *)
Definition cond_b (S T : CppType) : bool := is_same (TPtr S) T.

(** Lines 214-216: [!is_pointer<T> && is_constructible<T> &&
    (is_convertible<T,bool> || is_constructible<bool,T>)]. *)
Definition cond_c (S T : CppType) : bool :=
  negb (is_pointer T) && is_constructible T &&
  (is_convertible_bool T || is_constructible_bool_from T).

(** Lines 258-259: the explicit specialisation [<void, void*, void>]. *)
Definition cond_d (S T : CppType) : bool :=
  is_same S TVoid && is_same T (TPtr TVoid).

(** ** Template resolution *)

Inductive Specialization : Type :=
  | VariantA   (* distinct pointer handle *)
  | VariantB   (* T is S* *)
  | VariantC   (* boolean-convertible value *)
  | VariantD.  (* untyped: <void, void*> *)

Global Instance Specialization_eq_dec : EqDecision Specialization.
Proof. solve_decision. Defined.

(** Does the argument list [<S, T, E>] match a specialisation?  In the
    patterns of (a) and (c) the third argument is a non-deduced
    [enable_if<...>::type]: the specialisation matches when that type exists
    and is the [Enable] argument. *)
Definition sfinae_matches (cond : bool) (E : CppType) : bool :=
  match enable_if cond with
  | Some ty => is_same ty E
  | None => false
  end.

Definition matches (v : Specialization) (S T E : CppType) : bool :=
  match v with
  | VariantA => sfinae_matches (cond_a S T) E
  | VariantB => cond_b S T && is_same E TVoid
  | VariantC => sfinae_matches (cond_c S T) E
  | VariantD => cond_d S T && is_same E TVoid
  end.

(** The partial specialisations, in the order of the header. *)
Definition partial_specializations : list Specialization :=
  [VariantA; VariantB; VariantC].

(** Every specialisation of the header whose pattern matches the arguments. *)
Definition matching (S T E : CppType) : list Specialization :=
  filter (λ v, matches v S T E = true)
         (partial_specializations ++ [VariantD]).

(** The outcome of naming [ServiceTrackerCustomizer<S,T,E>]. *)
Inductive Resolved : Type :=
  | Primary                      (* lines 32-34: the empty primary template *)
  | Bound (v : Specialization)
  | Ambiguous.                   (* several partial specialisations, none preferred *)

Global Instance Resolved_eq_dec : EqDecision Resolved.
Proof. solve_decision. Defined.

(** C++ picks an explicit specialisation whenever the arguments are exactly
    its arguments; otherwise the matching partial specialisations compete.
    None of the header's partial specialisations is written to be preferred
    over another, so two matches are reported as [Ambiguous]. *)
Definition ServiceTrackerCustomizer (S T E : CppType) : Resolved :=
  if matches VariantD S T E then Bound VariantD
  else
    match filter (λ v, matches v S T E = true) partial_specializations with
    | [] => Primary
    | [v] => Bound v
    | _ => Ambiguous
    end.

(** [ServiceTrackerCustomizer<S,T>]: [Enable] defaults to [void]. *)
Definition ServiceTrackerCustomizer2 (S T : CppType) : Resolved :=
  ServiceTrackerCustomizer S T TVoid.

(** [ServiceTrackerCustomizer<S>]: [T] defaults to [S*] (line 32). *)
Definition ServiceTrackerCustomizer1 (S : CppType) : Resolved :=
  ServiceTrackerCustomizer2 S (TPtr S).

(** What the language gives every class, also the empty struct of lines
    32-34: its own name (the injected class name, which names the
    constructors too), the copy assignment operator and the destructor. *)
Definition implicit_members : list string :=
  ["ServiceTrackerCustomizer"; "operator="; "~ServiceTrackerCustomizer"].

(** What makes up the bundle of a specialisation: the nested [TypeTraits],
    the five typedefs and the three pure virtual callbacks. *)
Definition bundle_members : list string :=
  ["TypeTraits"; "ServiceType"; "TrackedType"; "TrackedReturnType";
   "TrackedArgType"; "ServiceReferenceType";
   "AddingService"; "ModifiedService"; "RemovedService"].

(** The member names of a resolved customizer.  Every specialisation declares
    the bundle and a virtual destructor; the primary template declares
    nothing and has the implicit members only. *)
Definition members (r : Resolved) : list string :=
  match r with
  | Bound _ => bundle_members ++ implicit_members
  | Primary => implicit_members
  | Ambiguous => []
  end.

Inductive BuildResult : Type :=
  | BuildOk
  | BuildError.

Definition build_ok (b : BuildResult) : bool :=
  match b with
  | BuildOk => true
  | BuildError => false
  end.

(** A qualified name [ServiceTrackerCustomizer<S,T>::name] compiles only when
    the resolved class declares [name]. *)
Definition lookup_member (r : Resolved) (name : string) : BuildResult :=
  if bool_decide (name ∈ members r) then BuildOk else BuildError.

(** A client (such as a tracker) that names the members [required] of the
    customizer for [<S,T>] builds only when all of them are declared. *)
Definition instantiate_client (required : list string) (S T : CppType) : BuildResult :=
  if forallb (λ n, build_ok (lookup_member (ServiceTrackerCustomizer2 S T) n))
             required
  then BuildOk else BuildError.

(** Sample types used in examples. *)
Definition Foo : CppType := TClass (mkClass "Foo" true NoBoolConversion).
Definition Bar : CppType := TClass (mkClass "Bar" true NoBoolConversion).
Definition Handle : CppType := TClass (mkClass "Handle" true ExplicitBool).
Definition NoDefault : CppType := TClass (mkClass "NoDefault" false ImplicitBool).

(** ** The dynamic layer: values, objects and results *)

(** A pointer value: [nullptr] or the address of an object. *)
Inductive Pointer : Type :=
  | nullptr
  | addr (a : positive).

Global Instance Pointer_eq_dec : EqDecision Pointer.
Proof. solve_decision. Defined.

(** Modelled from the spec: [InterfaceMap] is declared in a header that is not
    among the sources ([usServiceReference.h] and what it includes).  The spec
    describes it as an associative value from interface names to instance
    handles with the operations [is-empty] and [clear]. *)
Abbreviation InterfaceMap := (gmap string Pointer).

(** [m.empty()] *)
Definition InterfaceMap_empty (m : InterfaceMap) : bool := bool_decide (m = ∅).

(** The content of [m] after [m.clear()]. *)
Definition InterfaceMap_clear (m : InterfaceMap) : InterfaceMap := ∅.

(** [std::runtime_error(what)] *)
Inductive exception : Type :=
  | runtime_error (what : string).

(** How a call ends: it returns a value or it throws. *)
Inductive Result (A : Type) : Type :=
  | Return (a : A)
  | Throw (e : exception).
Arguments Return {A} a.
Arguments Throw {A} e.

(** Objects that are passed by non-const reference live in a store; a
    reference is the location of its object. *)
Abbreviation loc := positive.
Abbreviation Store V := (gmap loc V).

Section Objects.
Context {V : Type}.

(** [t = v] through the reference [t]; no result when [t] dangles. *)
Definition assign (t : loc) (v : V) (σ : Store V) : option (Store V) :=
  match σ !! t with
  | Some _ => Some (<[t := v]> σ)
  | None => None
  end.

(** A mutating member call [t.f()] through the reference [t]. *)
Definition mutate (t : loc) (f : V → V) (σ : Store V) : option (Store V) :=
  match σ !! t with
  | Some v => Some (<[t := f v]> σ)
  | None => None
  end.

(** A new object initialised with (a copy of) [v]. *)
Definition new_object (v : V) (σ : Store V) : loc * Store V :=
  let l := fresh (dom σ) in (l, <[l := v]> σ).

(** The content of object [t] after the call [dispose(t)]. *)
Definition after_Dispose (dispose : loc → Store V → option (Store V))
    (t : loc) (σ : Store V) : option V :=
  σ' ← dispose t σ; σ' !! t.

(** The content of object [t] after [dispose(t); dispose(t)]. *)
Definition after_Dispose_twice (dispose : loc → Store V → option (Store V))
    (t : loc) (σ : Store V) : option V :=
  σ1 ← dispose t σ; σ2 ← dispose t σ1; σ2 !! t.
End Objects.

(** [detail::ServiceArg<S>::type] (lines 38-48): [S*], and
    [const InterfaceMap&] for [S = void]. *)
Definition ServiceArg (S : CppType) : Type :=
  match S with
  | TVoid => InterfaceMap
  | _ => Pointer
  end.

(** The message of lines 113 and 242. *)
Definition custom_required : string :=
  "A custom ServiceTrackerCustomizer instance is required for custom tracked objects.".

(** The operations variant (c) needs of its tracked type [T]: [T()] and
    [static_cast<bool>(t)]. *)
Class BoolConvertible (T : Type) : Type := {
  value_init : T;
  static_cast_bool : T → bool
}.

Global Instance bool_BoolConvertible : BoolConvertible bool :=
  {| value_init := false; static_cast_bool b := b |}.

Global Instance int_BoolConvertible : BoolConvertible Z :=
  {| value_init := 0%Z; static_cast_bool z := negb (z =? 0)%Z |}.

(** [struct AlwaysOn { operator bool() const { return true; } };] *)
Inductive AlwaysOn : Type := mkAlwaysOn.

Global Instance AlwaysOn_BoolConvertible : BoolConvertible AlwaysOn :=
  {| value_init := mkAlwaysOn; static_cast_bool _ := true |}.

Definition AlwaysOnT : CppType := TClass (mkClass "AlwaysOn" true ImplicitBool).

(** ** Variant (a), lines 85-168: [T] is a pointer other than [S*] *)
Module DistinctHandle.
Section TypeTraits.
Context (S : CppType).

(** [typedef T TrackedType;] with [T] a pointer type. *)
Definition TrackedType : Type := Pointer.

(** Lines 96-99: [return t != nullptr;] *)
Definition IsValid (t : TrackedType) : bool :=
  negb (bool_decide (t = nullptr)).

(** Lines 101-104: [return nullptr;] *)
Definition DefaultValue : TrackedType := nullptr.

(** Lines 106-109: [t = nullptr;] through [TrackedType& t]. *)
Definition Dispose (t : loc) (σ : Store TrackedType) : option (Store TrackedType) :=
  assign t nullptr σ.

(** Lines 111-114: [throw std::runtime_error(...)]. *)
Definition ConvertToTrackedType (_ : ServiceArg S) : Result TrackedType :=
  Throw (runtime_error custom_required).
End TypeTraits.
End DistinctHandle.

(** ** Variant (b), lines 170-212: [T] is [S*] *)
Module SameTypeHandle.
(** [typedef S* TrackedType;] *)
Definition TrackedType : Type := Pointer.

(** Lines 181-184: [return t != nullptr;] *)
Definition IsValid (t : TrackedType) : bool :=
  negb (bool_decide (t = nullptr)).

(** Lines 186-189: [return nullptr;] *)
Definition DefaultValue : TrackedType := nullptr.

(** Lines 191-194: [t = nullptr;] through [TrackedType& t]. *)
Definition Dispose (t : loc) (σ : Store TrackedType) : option (Store TrackedType) :=
  assign t nullptr σ.

(** Lines 196-199: [return s;] *)
Definition ConvertToTrackedType (s : TrackedType) : Result TrackedType :=
  Return s.
End SameTypeHandle.

(** ** Variant (c), lines 214-256: [T] is a boolean-convertible value *)
Module BoolValue.
Section TypeTraits.
Context (S : CppType) {T : Type} `{!BoolConvertible T}.

(** Lines 226-229: [return static_cast<bool>(t);] *)
Definition IsValid (t : T) : bool := static_cast_bool t.

(** Lines 231-234: [return TrackedReturnType();] *)
Definition DefaultValue : T := value_init.

(** Lines 236-238: the body is empty. *)
Definition Dispose (_ : loc) (σ : Store T) : option (Store T) := Some σ.

(** Lines 240-243: [throw std::runtime_error(...)]. *)
Definition ConvertToTrackedType (_ : ServiceArg S) : Result T :=
  Throw (runtime_error custom_required).
End TypeTraits.
End BoolValue.

(** ** Variant (d), lines 258-300: [<void, void*>] *)
Module Untyped.
(** [typedef InterfaceMap TrackedReturnType;] *)
Definition TrackedReturnType : Type := InterfaceMap.

(** Lines 269-272: [return !t.empty();] *)
Definition IsValid (t : InterfaceMap) : bool := negb (InterfaceMap_empty t).

(** Lines 274-277: [return TrackedReturnType();] *)
Definition DefaultValue : TrackedReturnType := ∅.

(** Lines 279-282: [t.clear();] through [InterfaceMap& t]. *)
Definition Dispose (t : loc) (σ : Store InterfaceMap) : option (Store InterfaceMap) :=
  mutate t InterfaceMap_clear σ.

(** Lines 284-287: [return im;] *)
Definition ConvertToTrackedType (im : InterfaceMap) : Result TrackedReturnType :=
  Return im.

(** A caller that keeps the supplied map in the object [im] and stores what
    [ConvertToTrackedType] returns in an object of its own:
    [InterfaceMap tracked = ConvertToTrackedType(im);]
    The return type is [InterfaceMap], not a reference, so the result is a
    value that initialises a new object. *)
Definition convert_into_object (im : loc) (σ : Store InterfaceMap)
    : option (loc * Store InterfaceMap) :=
  m ← σ !! im;
  match ConvertToTrackedType m with
  | Return r => Some (new_object r σ)
  | Throw _ => None
  end.

(** The same caller disposing of its object afterwards:
    [InterfaceMap tracked = ConvertToTrackedType(im); Dispose(tracked);] *)
Definition convert_then_dispose (im : loc) (σ : Store InterfaceMap)
    : option (loc * Store InterfaceMap) :=
  '(tracked, σ1) ← convert_into_object im σ;
  σ2 ← Dispose tracked σ1; Some (tracked, σ2).
End Untyped.

(** ** The typedefs and signatures of the specialisations *)

(** The types the typedefs and parameter lists of the header denote: the
    types of [CppType], [InterfaceMap], [ServiceReference<S>] and references
    to these. *)
Inductive TypeExpr : Type :=
  | Ty (t : CppType)
  | InterfaceMapTy
  | ServiceReferenceTy (S : CppType)
  | LRef (t : TypeExpr)        (* X& *)
  | ConstLRef (t : TypeExpr).  (* const X& *)

Global Instance TypeExpr_eq_dec : EqDecision TypeExpr.
Proof. solve_decision. Defined.

(** The five typedefs every [TypeTraits] declares. *)
Record Typedefs : Type := mkTypedefs {
  ServiceType : TypeExpr;
  TrackedType : TypeExpr;
  TrackedReturnType : TypeExpr;
  TrackedArgType : TypeExpr;
  ServiceReferenceType : TypeExpr
}.

(** [detail::ServiceArg<S>::type] as a type (lines 38-48). *)
Definition ServiceArg_type (S : CppType) : TypeExpr :=
  match S with
  | TVoid => ConstLRef InterfaceMapTy
  | _ => Ty (TPtr S)
  end.

(** Lines 90-94, 175-179, 220-224 and 263-267.  In (b) the typedefs are
    written with the pattern's [S], in (d) with [void] and [void*]; the
    template arguments do not occur there. *)
Definition typedefs (v : Specialization) (S T : CppType) : Typedefs :=
  match v with
  | VariantA =>
      mkTypedefs (Ty S) (Ty T) (Ty T) (Ty T) (ServiceReferenceTy S)
  | VariantB =>
      mkTypedefs (Ty S) (Ty (TPtr S)) (Ty (TPtr S)) (Ty (TPtr S)) (ServiceReferenceTy S)
  | VariantC =>
      mkTypedefs (Ty S) (Ty T) (Ty T) (LRef (Ty T)) (ServiceReferenceTy S)
  | VariantD =>
      mkTypedefs (Ty TVoid) (Ty (TPtr TVoid)) InterfaceMapTy
                 (ConstLRef InterfaceMapTy) (ServiceReferenceTy TVoid)
  end.

(** The parameter of [ConvertToTrackedType] as each specialisation declares
    it (lines 111, 196, 240 and 284). *)
Definition ConvertToTrackedType_param (v : Specialization) (S T : CppType) : TypeExpr :=
  match v with
  | VariantA | VariantC => ServiceArg_type S
  | VariantB => TrackedReturnType (typedefs VariantB S T)
  | VariantD => TrackedArgType (typedefs VariantD S T)
  end.

(** The typedefs of [ServiceTrackerCustomizer<S,T>], when it declares any. *)
Definition resolved_typedefs (S T : CppType) : option Typedefs :=
  match ServiceTrackerCustomizer2 S T with
  | Bound v => Some (typedefs v S T)
  | Primary | Ambiguous => None
  end.

(** * Properties *)

(** ** The definitions at work on sample inputs *)

Example resolve_Foo_default : ServiceTrackerCustomizer1 Foo = Bound VariantB.
Proof. reflexivity. Qed.
Example resolve_Foo_Bar : ServiceTrackerCustomizer2 Foo (TPtr Bar) = Bound VariantA.
Proof. reflexivity. Qed.
Example resolve_Foo_Handle : ServiceTrackerCustomizer2 Foo Handle = Bound VariantC.
Proof. reflexivity. Qed.
Example resolve_void : ServiceTrackerCustomizer2 TVoid (TPtr TVoid) = Bound VariantD.
Proof. reflexivity. Qed.
Example resolve_Foo_void : ServiceTrackerCustomizer2 Foo TVoid = Primary.
Proof. reflexivity. Qed.
Example resolve_Foo_NoDefault : ServiceTrackerCustomizer2 Foo NoDefault = Primary.
Proof. reflexivity. Qed.
Example resolve_Foo_Foo_int : ServiceTrackerCustomizer Foo (TPtr Foo) TInt = Primary.
Proof. reflexivity. Qed.
Example matching_void : matching TVoid (TPtr TVoid) TVoid = [VariantB; VariantD].
Proof. reflexivity. Qed.

Example two_interfaces_valid :
  Untyped.IsValid {[ "IFoo" := addr 1; "IBar" := addr 2 ]} = true.
Proof. vm_compute. reflexivity. Qed.

Example convert_then_dispose_run :
  Untyped.convert_then_dispose 1 {[ 1%positive := {[ "IFoo" := addr 7 ]} ]}
  = Some (2%positive, {[ 1%positive := {[ "IFoo" := addr 7 ]}; 2%positive := ∅ ]}).
Proof. vm_compute. reflexivity. Qed.

(** ** Helper lemmas on the selection conditions *)

Lemma cond_b_is_pointer S T : cond_b S T = true → is_pointer T = true.
Proof.
  unfold cond_b, is_same. intros H%bool_decide_eq_true. by subst.
Qed.

Lemma cond_a_b_disjoint S T : cond_a S T && cond_b S T = false.
Proof.
  unfold cond_a, cond_b. destruct (is_same (TPtr S) T), (is_pointer T); done.
Qed.

Lemma cond_a_c_disjoint S T : cond_a S T && cond_c S T = false.
Proof.
  unfold cond_a, cond_c. destruct (is_pointer T); simpl; [|done].
  by rewrite andb_false_r.
Qed.

Lemma cond_b_c_disjoint S T : cond_b S T && cond_c S T = false.
Proof.
  destruct (cond_b S T) eqn:Hb; [|done].
  apply cond_b_is_pointer in Hb. unfold cond_c. by rewrite Hb.
Qed.

Lemma cond_d_in_b S T : cond_d S T = cond_b S T && is_same S TVoid.
Proof.
  unfold cond_d, cond_b, is_same.
  destruct (decide (S = TVoid)) as [->|Hne].
  - rewrite !bool_decide_eq_true_2 by done. rewrite andb_true_r. simpl.
    apply bool_decide_ext. split; congruence.
  - rewrite (bool_decide_eq_false_2 (S = TVoid)) by done.
    by rewrite andb_false_r.
Qed.

Lemma cond_a_d_disjoint S T : cond_a S T && cond_d S T = false.
Proof.
  rewrite cond_d_in_b, andb_assoc, cond_a_b_disjoint. done.
Qed.

Lemma cond_c_d_disjoint S T : cond_c S T && cond_d S T = false.
Proof.
  rewrite cond_d_in_b, andb_assoc, (andb_comm (cond_c S T)), cond_b_c_disjoint.
  done.
Qed.

Lemma sfinae_matches_void c : sfinae_matches c TVoid = c.
Proof. by destruct c. Qed.

Lemma sfinae_matches_cond c E : sfinae_matches c E = true → c = true.
Proof. by destruct c. Qed.

Lemma matches_void v S T :
  matches v S T TVoid =
  match v with
  | VariantA => cond_a S T
  | VariantB => cond_b S T
  | VariantC => cond_c S T
  | VariantD => cond_d S T
  end.
Proof.
  destruct v; simpl; rewrite ?sfinae_matches_void; try done;
    unfold is_same; rewrite bool_decide_eq_true_2 by done; apply andb_true_r.
Qed.

(** What a match tells about the condition of the specialisation. *)
Lemma matches_cond v S T E :
  matches v S T E = true →
  match v with
  | VariantA => cond_a S T
  | VariantB => cond_b S T
  | VariantC => cond_c S T
  | VariantD => cond_d S T
  end = true.
Proof.
  destruct v; simpl; intros H;
    first [ by apply sfinae_matches_cond in H
          | by apply andb_true_iff in H as [? _] ].
Qed.

(** Two matches of different partial specialisations contradict one of the
    disjointness lemmas. *)
Ltac clash lem :=
  match goal with
  | H1 : matches ?v ?S ?T ?E = true, H2 : matches ?w ?S ?T ?E = true |- _ =>
      apply matches_cond in H1; apply matches_cond in H2;
      let X := fresh in
      pose proof (lem S T) as X; rewrite H1, H2 in X; discriminate X
  end.

(** At most one partial specialisation matches any argument list. *)
Lemma partial_matches_at_most_one S T E :
  length (filter (λ v, matches v S T E = true) partial_specializations) ≤ 1.
Proof.
  unfold partial_specializations.
  rewrite !filter_cons, filter_nil.
  repeat case_decide; simpl; try lia; exfalso;
    first [ clash cond_a_b_disjoint | clash cond_a_c_disjoint
          | clash cond_b_c_disjoint ].
Qed.

Lemma resolve_not_Ambiguous S T E : ServiceTrackerCustomizer S T E ≠ Ambiguous.
Proof.
  unfold ServiceTrackerCustomizer.
  destruct (matches VariantD S T E); [done|].
  pose proof (partial_matches_at_most_one S T E) as Hlen.
  destruct (filter _ partial_specializations) as [|v [|w l]]; try done.
  simpl in Hlen. lia.
Qed.

(** Resolution with the default [Enable = void], as a decision list. *)
Lemma resolve2_spec S T :
  ServiceTrackerCustomizer2 S T =
  if cond_d S T then Bound VariantD
  else if cond_a S T then Bound VariantA
  else if cond_b S T then Bound VariantB
  else if cond_c S T then Bound VariantC
  else Primary.
Proof.
  unfold ServiceTrackerCustomizer2, ServiceTrackerCustomizer.
  unfold partial_specializations.
  rewrite !filter_cons, filter_nil.
  rewrite !matches_void.
  pose proof (cond_a_b_disjoint S T) as Hab.
  pose proof (cond_a_c_disjoint S T) as Hac.
  pose proof (cond_b_c_disjoint S T) as Hbc.
  destruct (cond_d S T); [done|].
  destruct (cond_a S T), (cond_b S T), (cond_c S T); simpl in *;
    try discriminate; repeat case_decide; done.
Qed.

(** ** Selection *)

(** C1, as stated, fails: the pair [S = void], [T = void*] satisfies both the
    condition of (b), [T] is [S*], and that of (d). *)
Lemma void_pair_matches_b_and_d :
  cond_b TVoid (TPtr TVoid) = true ∧ cond_d TVoid (TPtr TVoid) = true ∧
  matching TVoid (TPtr TVoid) TVoid = [VariantB; VariantD].
Proof. repeat split. Qed.

(** C1 (amended): the conditions of (a), (b) and (c) are pairwise disjoint and
    (d) is disjoint from (a) and (c); (d) is the restriction of (b) to
    [S = void], where the explicit specialisation is the one chosen.  At most
    one partial specialisation matches any argument list, resolution is never
    ambiguous, and the only argument list matched by two specialisations is
    [<void, void*, void>], which is bound to (d). *)
Theorem selection_binds_at_most_one (S T : CppType) :
  cond_a S T && cond_b S T = false ∧
  cond_a S T && cond_c S T = false ∧
  cond_b S T && cond_c S T = false ∧
  cond_a S T && cond_d S T = false ∧
  cond_c S T && cond_d S T = false ∧
  cond_d S T = cond_b S T && is_same S TVoid ∧
  (∀ E, length (filter (λ v, matches v S T E = true) partial_specializations) ≤ 1) ∧
  (∀ E, ServiceTrackerCustomizer S T E ≠ Ambiguous) ∧
  (∀ E, length (matching S T E) ≤ 1 ∨
        ((S, T, E) = (TVoid, TPtr TVoid, TVoid) ∧
         matching S T E = [VariantB; VariantD] ∧
         ServiceTrackerCustomizer S T E = Bound VariantD)).
Proof.
  split_and!.
  - apply cond_a_b_disjoint.
  - apply cond_a_c_disjoint.
  - apply cond_b_c_disjoint.
  - apply cond_a_d_disjoint.
  - apply cond_c_d_disjoint.
  - apply cond_d_in_b.
  - apply partial_matches_at_most_one.
  - apply resolve_not_Ambiguous.
  - intros E. unfold matching. rewrite filter_app.
    pose proof (partial_matches_at_most_one S T E) as Hlen.
    rewrite length_app, filter_cons, filter_nil.
    case_decide as Hd; simpl; [|left; lia].
    right.
    assert ((S, T, E) = (TVoid, TPtr TVoid, TVoid)) as Heq.
    { simpl in Hd. unfold cond_d, is_same in Hd.
      apply andb_true_iff in Hd as [Hd HE].
      apply andb_true_iff in Hd as [HS HT].
      apply bool_decide_eq_true in HE, HS, HT. by subst. }
    inversion Heq; subst. done.
Qed.

(** ** Helper lemmas on objects *)

Lemma assign_Some {V} (t : loc) (v v0 : V) (σ : Store V) :
  σ !! t = Some v0 → assign t v σ = Some (<[t := v]> σ).
Proof. unfold assign. by intros ->. Qed.

Lemma mutate_Some {V} (t : loc) (f : V → V) (v0 : V) (σ : Store V) :
  σ !! t = Some v0 → mutate t f σ = Some (<[t := f v0]> σ).
Proof. unfold mutate. by intros ->. Qed.

Lemma new_object_fresh {V} (v : V) (σ : Store V) :
  σ !! (new_object v σ).1 = None.
Proof. simpl. apply not_elem_of_dom, is_fresh. Qed.

Lemma handle_Dispose_lookup (t : loc) (v0 : Pointer) (σ : Store Pointer) :
  σ !! t = Some v0 →
  DistinctHandle.Dispose t σ = Some (<[t := nullptr]> σ) ∧
  SameTypeHandle.Dispose t σ = Some (<[t := nullptr]> σ).
Proof.
  intros H. unfold DistinctHandle.Dispose, SameTypeHandle.Dispose.
  by rewrite (assign_Some _ _ _ _ H).
Qed.

Lemma Untyped_Dispose_lookup (t : loc) (m : InterfaceMap) (σ : Store InterfaceMap) :
  σ !! t = Some m → Untyped.Dispose t σ = Some (<[t := ∅]> σ).
Proof.
  intros H. unfold Untyped.Dispose. by rewrite (mutate_Some _ _ _ _ H).
Qed.

(** ** The conversion of variants (a) and (c) *)

(** C2: in variants (a) and (c) [ConvertToTrackedType] throws
    [std::runtime_error] with the message that a custom
    ServiceTrackerCustomizer instance is required, whatever the argument; it
    returns no value, in particular not [DefaultValue()]. *)
Theorem ConvertToTrackedType_always_throws :
  (∀ (S : CppType) (arg : ServiceArg S),
     DistinctHandle.ConvertToTrackedType S arg =
       Throw (runtime_error
         "A custom ServiceTrackerCustomizer instance is required for custom tracked objects.") ∧
     (∀ r, DistinctHandle.ConvertToTrackedType S arg ≠ Return r) ∧
     DistinctHandle.ConvertToTrackedType S arg ≠ Return DistinctHandle.DefaultValue) ∧
  (∀ (S : CppType) (T : Type) (HT : BoolConvertible T) (arg : ServiceArg S),
     BoolValue.ConvertToTrackedType S (T := T) arg =
       Throw (runtime_error
         "A custom ServiceTrackerCustomizer instance is required for custom tracked objects.") ∧
     (∀ r, BoolValue.ConvertToTrackedType S (T := T) arg ≠ Return r) ∧
     BoolValue.ConvertToTrackedType S (T := T) arg ≠ Return BoolValue.DefaultValue).
Proof.
  split; intros; unfold DistinctHandle.ConvertToTrackedType,
    BoolValue.ConvertToTrackedType, custom_required; split_and!; try done.
Qed.

(** ** [IsValid] of [DefaultValue()] *)

(** C3, as stated, fails in variant (c): a default-constructible class whose
    conversion to [bool] yields [true] satisfies the condition of (c), and
    its [DefaultValue()] is valid. *)
Lemma AlwaysOn_default_is_valid :
  cond_c Foo AlwaysOnT = true ∧
  ServiceTrackerCustomizer2 Foo AlwaysOnT = Bound VariantC ∧
  BoolValue.IsValid (T := AlwaysOn) BoolValue.DefaultValue = true.
Proof. repeat split. Qed.

(** C3 (amended): [IsValid(DefaultValue())] is [false] in variants (a), (b)
    and (d), where [DefaultValue()] is the null pointer, the null pointer and
    the empty map.  In variant (c) it is [static_cast<bool>(T())]: [false]
    for [bool] and for an arithmetic type, and in general whatever the
    tracked type's conversion says of its default-constructed value. *)
Theorem IsValid_DefaultValue :
  DistinctHandle.IsValid DistinctHandle.DefaultValue = false ∧
  SameTypeHandle.IsValid SameTypeHandle.DefaultValue = false ∧
  (Untyped.DefaultValue = ∅ ∧ Untyped.IsValid Untyped.DefaultValue = false) ∧
  (∀ (T : Type) (HT : BoolConvertible T),
     BoolValue.IsValid (T := T) BoolValue.DefaultValue = static_cast_bool (value_init (T := T))) ∧
  BoolValue.IsValid (T := bool) BoolValue.DefaultValue = false ∧
  BoolValue.IsValid (T := Z) BoolValue.DefaultValue = false.
Proof. split_and!; try done. Qed.

(** ** [Dispose] *)

(** C4, as stated, fails in variant (c): [Dispose] has an empty body there,
    so a tracked [bool] that is [true] stays [true], which is not
    [DefaultValue()]. *)
Lemma BoolValue_Dispose_keeps_true :
  after_Dispose (BoolValue.Dispose (T := bool)) 1 {[ 1%positive := true ]} = Some true ∧
  after_Dispose (BoolValue.Dispose (T := bool)) 1 {[ 1%positive := true ]}
    ≠ Some (BoolValue.DefaultValue (T := bool)).
Proof. split; [reflexivity | discriminate]. Qed.

(** C4 (amended): in variants (a), (b) and (d), after [Dispose(t)] the object
    [t] holds [DefaultValue()]; in variant (c) [Dispose] changes nothing, so
    [t] keeps the value it had. *)
Theorem Dispose_leaves_DefaultValue :
  (∀ (σ : Store Pointer) (t : loc) (v : Pointer), σ !! t = Some v →
     after_Dispose DistinctHandle.Dispose t σ = Some DistinctHandle.DefaultValue) ∧
  (∀ (σ : Store Pointer) (t : loc) (v : Pointer), σ !! t = Some v →
     after_Dispose SameTypeHandle.Dispose t σ = Some SameTypeHandle.DefaultValue) ∧
  (∀ (σ : Store InterfaceMap) (t : loc) (m : InterfaceMap), σ !! t = Some m →
     after_Dispose Untyped.Dispose t σ = Some Untyped.DefaultValue) ∧
  (∀ (T : Type) (HT : BoolConvertible T) (σ : Store T) (t : loc) (v : T),
     σ !! t = Some v →
     BoolValue.Dispose t σ = Some σ ∧ after_Dispose BoolValue.Dispose t σ = Some v).
Proof.
  split_and!.
  - intros σ t v H. unfold after_Dispose.
    destruct (handle_Dispose_lookup t v σ H) as [-> _]. simpl.
    apply lookup_insert_eq.
  - intros σ t v H. unfold after_Dispose.
    destruct (handle_Dispose_lookup t v σ H) as [_ ->]. simpl.
    apply lookup_insert_eq.
  - intros σ t m H. unfold after_Dispose.
    rewrite (Untyped_Dispose_lookup t m σ H). simpl.
    apply lookup_insert_eq.
  - intros T HT σ t v H. split; [done|]. unfold after_Dispose. by simpl.
Qed.

Lemma Dispose_leaves_DefaultValue_witness :
  after_Dispose DistinctHandle.Dispose 1 {[ 1%positive := addr 5 ]} = Some nullptr ∧
  after_Dispose SameTypeHandle.Dispose 1 {[ 1%positive := addr 5 ]} = Some nullptr ∧
  after_Dispose Untyped.Dispose 1 {[ 1%positive := {[ "IFoo" := addr 5 ]} ]} = Some ∅ ∧
  after_Dispose (BoolValue.Dispose (T := bool)) 1 {[ 1%positive := true ]} = Some true.
Proof.
  destruct Dispose_leaves_DefaultValue as (Ha & Hb & Hd & Hc).
  split_and!.
  - apply (Ha {[ 1%positive := addr 5 ]} 1%positive (addr 5)). reflexivity.
  - apply (Hb {[ 1%positive := addr 5 ]} 1%positive (addr 5)). reflexivity.
  - apply (Hd {[ 1%positive := {[ "IFoo" := addr 5 ]} ]} 1%positive
              {[ "IFoo" := addr 5 ]}). reflexivity.
  - apply (Hc bool _ {[ 1%positive := true ]} 1%positive true). reflexivity.
Defined.

(** C7, as stated, fails in variant (c): disposing of a tracked [bool] that
    is [true] twice leaves it [true] after the first call and after the
    second, never equal to [DefaultValue()]. *)
Lemma BoolValue_Dispose_twice_keeps_true :
  after_Dispose_twice (BoolValue.Dispose (T := bool)) 1 {[ 1%positive := true ]}
    = Some true ∧
  after_Dispose_twice (BoolValue.Dispose (T := bool)) 1 {[ 1%positive := true ]}
    ≠ Some (BoolValue.DefaultValue (T := bool)).
Proof. split; [reflexivity | discriminate]. Qed.

(** C7 (amended): in variants (a), (b) and (d), calling [Dispose(t)] twice
    leaves [t] equal to [DefaultValue()] after the first call and after the
    second.  In variant (c) both calls leave the store as it was: [Dispose]
    is idempotent there too, but [t] keeps its value. *)
Theorem Dispose_idempotent :
  (∀ (σ : Store Pointer) (t : loc) (v : Pointer), σ !! t = Some v →
     after_Dispose DistinctHandle.Dispose t σ = Some DistinctHandle.DefaultValue ∧
     after_Dispose_twice DistinctHandle.Dispose t σ = Some DistinctHandle.DefaultValue) ∧
  (∀ (σ : Store Pointer) (t : loc) (v : Pointer), σ !! t = Some v →
     after_Dispose SameTypeHandle.Dispose t σ = Some SameTypeHandle.DefaultValue ∧
     after_Dispose_twice SameTypeHandle.Dispose t σ = Some SameTypeHandle.DefaultValue) ∧
  (∀ (σ : Store InterfaceMap) (t : loc) (m : InterfaceMap), σ !! t = Some m →
     after_Dispose Untyped.Dispose t σ = Some Untyped.DefaultValue ∧
     after_Dispose_twice Untyped.Dispose t σ = Some Untyped.DefaultValue) ∧
  (∀ (T : Type) (HT : BoolConvertible T) (σ : Store T) (t : loc) (v : T),
     σ !! t = Some v →
     after_Dispose BoolValue.Dispose t σ = Some v ∧
     after_Dispose_twice BoolValue.Dispose t σ = Some v).
Proof.
  split_and!.
  - intros σ t v H. unfold after_Dispose, after_Dispose_twice.
    destruct (handle_Dispose_lookup t v σ H) as [-> _]. simpl.
    destruct (handle_Dispose_lookup t nullptr (<[t := nullptr]> σ)) as [-> _];
      [apply lookup_insert_eq|]. simpl.
    by rewrite !lookup_insert_eq.
  - intros σ t v H. unfold after_Dispose, after_Dispose_twice.
    destruct (handle_Dispose_lookup t v σ H) as [_ ->]. simpl.
    destruct (handle_Dispose_lookup t nullptr (<[t := nullptr]> σ)) as [_ ->];
      [apply lookup_insert_eq|]. simpl.
    by rewrite !lookup_insert_eq.
  - intros σ t m H. unfold after_Dispose, after_Dispose_twice.
    rewrite (Untyped_Dispose_lookup t m σ H). simpl.
    rewrite (Untyped_Dispose_lookup t ∅ (<[t := ∅]> σ)) by apply lookup_insert_eq.
    simpl. by rewrite !lookup_insert_eq.
  - intros T HT σ t v H. by split.
Qed.

Lemma Dispose_idempotent_witness :
  after_Dispose_twice DistinctHandle.Dispose 1 {[ 1%positive := addr 5 ]} = Some nullptr ∧
  after_Dispose_twice SameTypeHandle.Dispose 1 {[ 1%positive := addr 5 ]} = Some nullptr ∧
  after_Dispose_twice Untyped.Dispose 1 {[ 1%positive := {[ "IFoo" := addr 5 ]} ]} = Some ∅ ∧
  after_Dispose_twice (BoolValue.Dispose (T := bool)) 1 {[ 1%positive := true ]} = Some true.
Proof.
  destruct Dispose_idempotent as (Ha & Hb & Hd & Hc).
  split_and!.
  - apply (Ha {[ 1%positive := addr 5 ]} 1%positive (addr 5)). reflexivity.
  - apply (Hb {[ 1%positive := addr 5 ]} 1%positive (addr 5)). reflexivity.
  - apply (Hd {[ 1%positive := {[ "IFoo" := addr 5 ]} ]} 1%positive
              {[ "IFoo" := addr 5 ]}). reflexivity.
  - apply (Hc bool _ {[ 1%positive := true ]} 1%positive true). reflexivity.
Defined.

(** ** Round trips *)

(** C5: in variant (b), [ConvertToTrackedType] returns a non-null handle
    unchanged, and what it returns satisfies [IsValid]. *)
Theorem SameTypeHandle_round_trip (s : Pointer) :
  s ≠ nullptr →
  SameTypeHandle.ConvertToTrackedType s = Return s ∧
  (∀ r, SameTypeHandle.ConvertToTrackedType s = Return r →
        SameTypeHandle.IsValid r = true).
Proof.
  intros Hs. split; [done|].
  intros r [= <-]. unfold SameTypeHandle.IsValid.
  by rewrite bool_decide_eq_false_2.
Qed.

Lemma SameTypeHandle_round_trip_witness :
  SameTypeHandle.ConvertToTrackedType (addr 3) = Return (addr 3) ∧
  (∀ r, SameTypeHandle.ConvertToTrackedType (addr 3) = Return r →
        SameTypeHandle.IsValid r = true).
Proof. apply (SameTypeHandle_round_trip (addr 3)). discriminate. Defined.

(** C6: in variant (d), [ConvertToTrackedType] returns the supplied map
    itself, and [IsValid(m)] is [!m.empty()]: it holds exactly of the
    non-empty maps. *)
Theorem Untyped_round_trip (m : InterfaceMap) :
  Untyped.ConvertToTrackedType m = Return m ∧
  Untyped.IsValid m = negb (InterfaceMap_empty m) ∧
  (Untyped.IsValid m = true ↔ m ≠ ∅).
Proof.
  split_and!; try done.
  unfold Untyped.IsValid, InterfaceMap_empty.
  rewrite negb_true_iff, bool_decide_eq_false. done.
Qed.

(** ** Unsupported pairs and the default tracked type *)

(** C8: a pair [(S, T)] that satisfies none of the four conditions resolves
    to the primary template, which binds no bundle: it has no [TypeTraits],
    none of the typedefs and none of the callbacks.  Naming any of them is a
    build error, and so is building a client, a tracker say, that names at
    least one of them. *)
Theorem unsupported_pair_is_empty (S T : CppType) :
  cond_a S T = false → cond_b S T = false →
  cond_c S T = false → cond_d S T = false →
  ServiceTrackerCustomizer2 S T = Primary ∧
  (∀ name, name ∈ bundle_members →
     (name ∉ members (ServiceTrackerCustomizer2 S T)) ∧
     lookup_member (ServiceTrackerCustomizer2 S T) name = BuildError) ∧
  (∀ required name, name ∈ required → name ∈ bundle_members →
     instantiate_client required S T = BuildError).
Proof.
  intros Ha Hb Hc Hd.
  assert (ServiceTrackerCustomizer2 S T = Primary) as Hres.
  { rewrite resolve2_spec. by rewrite Ha, Hb, Hc, Hd. }
  assert (∀ name, name ∈ bundle_members →
            lookup_member (ServiceTrackerCustomizer2 S T) name = BuildError) as Hlook.
  { intros name Hin. rewrite Hres.
    unfold bundle_members in Hin.
    repeat (apply elem_of_cons in Hin as [-> | Hin]; [reflexivity|]).
    by apply elem_of_nil in Hin. }
  split_and!; [done| |].
  - intros name Hin. split; [|by apply Hlook].
    intros Hmem. specialize (Hlook name Hin).
    unfold lookup_member in Hlook. by rewrite bool_decide_eq_true_2 in Hlook.
  - intros required name Hreq Hin. unfold instantiate_client.
    destruct (forallb _ required) eqn:Hall; [|done].
    rewrite forallb_forall in Hall.
    apply list_elem_of_In in Hreq. specialize (Hall name Hreq).
    by rewrite (Hlook name Hin) in Hall.
Qed.

Lemma unsupported_pair_is_empty_witness :
  ServiceTrackerCustomizer2 Foo TVoid = Primary ∧
  (∀ name, name ∈ bundle_members →
     (name ∉ members (ServiceTrackerCustomizer2 Foo TVoid)) ∧
     lookup_member (ServiceTrackerCustomizer2 Foo TVoid) name = BuildError) ∧
  (∀ required name, name ∈ required → name ∈ bundle_members →
     instantiate_client required Foo TVoid = BuildError).
Proof. apply (unsupported_pair_is_empty Foo TVoid); reflexivity. Defined.

(** C9, as stated, fails for [S = void]: [ServiceTrackerCustomizer<void>] is
    [ServiceTrackerCustomizer<void, void*>], the explicit specialisation (d),
    not the same-type-handle bundle (b). *)
Lemma default_T_of_void_is_not_b :
  ServiceTrackerCustomizer1 TVoid = Bound VariantD ∧
  ServiceTrackerCustomizer1 TVoid ≠ Bound VariantB.
Proof. split; [reflexivity | discriminate]. Qed.

(** C9 (amended): with the tracked type omitted, [T] is [S*].  For every
    service type other than [void] the customizer is the same-type-handle
    bundle (b), whose [ConvertToTrackedType] returns the service pointer it
    is given; for [S = void] it is the untyped bundle (d), whose
    [ConvertToTrackedType] returns the interface map it is given. *)
Theorem default_tracked_type (S : CppType) :
  ServiceTrackerCustomizer1 S = ServiceTrackerCustomizer S (TPtr S) TVoid ∧
  (S ≠ TVoid → ServiceTrackerCustomizer1 S = Bound VariantB) ∧
  (S = TVoid → ServiceTrackerCustomizer1 S = Bound VariantD) ∧
  (∀ s : Pointer, SameTypeHandle.ConvertToTrackedType s = Return s) ∧
  (∀ m : InterfaceMap, Untyped.ConvertToTrackedType m = Return m).
Proof.
  split_and!; try done.
  - intros HS. unfold ServiceTrackerCustomizer1. rewrite resolve2_spec.
    rewrite cond_d_in_b.
    assert (cond_b S (TPtr S) = true) as Hb
      by (unfold cond_b, is_same; by rewrite bool_decide_eq_true_2).
    assert (cond_a S (TPtr S) = false) as Ha.
    { pose proof (cond_a_b_disjoint S (TPtr S)) as H. rewrite Hb in H.
      by rewrite andb_true_r in H. }
    rewrite Hb, Ha. unfold is_same. by rewrite bool_decide_eq_false_2.
  - by intros ->.
Qed.

Lemma default_tracked_type_witness :
  ServiceTrackerCustomizer1 Foo = Bound VariantB ∧
  ServiceTrackerCustomizer1 TVoid = Bound VariantD.
Proof.
  destruct (default_tracked_type Foo) as (_ & Hb & _).
  destruct (default_tracked_type TVoid) as (_ & _ & Hd & _).
  split; [apply Hb; discriminate | apply Hd; reflexivity].
Defined.

(** ** Copies in the untyped variant *)

(** C10: in variant (d) [ConvertToTrackedType] returns the supplied map by
    value.  A caller that stores the result in an object of its own holds a
    second object with the entries of the supplied map; when it then calls
    [Dispose] on its object, that object is empty and the supplied map, like
    every other object, still has its entries. *)
Theorem Untyped_Dispose_of_copy (σ : Store InterfaceMap) (im : loc) (m : InterfaceMap) :
  σ !! im = Some m →
  Untyped.ConvertToTrackedType m = Return m ∧
  TrackedReturnType (typedefs VariantD TVoid (TPtr TVoid)) = InterfaceMapTy ∧
  ∃ (tracked : loc) (σ1 σ2 : Store InterfaceMap),
    Untyped.convert_into_object im σ = Some (tracked, σ1) ∧
    tracked ≠ im ∧
    σ1 !! tracked = Some m ∧
    σ1 !! im = Some m ∧
    Untyped.Dispose tracked σ1 = Some σ2 ∧
    Untyped.convert_then_dispose im σ = Some (tracked, σ2) ∧
    σ2 !! tracked = Some ∅ ∧
    σ2 !! im = Some m ∧
    (∀ l, l ≠ tracked → σ2 !! l = σ !! l).
Proof.
  intros Him. split_and!; [done..|].
  set (tracked := fresh (dom σ)).
  assert (σ !! tracked = None) as Hfresh by apply (new_object_fresh m σ).
  assert (tracked ≠ im) as Hne by congruence.
  assert (Untyped.convert_into_object im σ = Some (tracked, <[tracked := m]> σ))
    as Hconv.
  { unfold Untyped.convert_into_object. rewrite Him. done. }
  assert (Untyped.Dispose tracked (<[tracked := m]> σ)
          = Some (<[tracked := ∅]> (<[tracked := m]> σ))) as Hdisp.
  { apply (Untyped_Dispose_lookup tracked m). apply lookup_insert_eq. }
  exists tracked, (<[tracked := m]> σ), (<[tracked := ∅]> (<[tracked := m]> σ)).
  split_and!; try done.
  - apply lookup_insert_eq.
  - by rewrite lookup_insert_ne.
  - unfold Untyped.convert_then_dispose. rewrite Hconv. simpl.
    by rewrite Hdisp.
  - apply lookup_insert_eq.
  - by rewrite !lookup_insert_ne.
  - intros l Hl. by rewrite !lookup_insert_ne.
Qed.

Lemma Untyped_Dispose_of_copy_witness :
  Untyped.ConvertToTrackedType {[ "IFoo" := addr 7 ]} = Return {[ "IFoo" := addr 7 ]} ∧
  TrackedReturnType (typedefs VariantD TVoid (TPtr TVoid)) = InterfaceMapTy ∧
  ∃ (tracked : loc) (σ1 σ2 : Store InterfaceMap),
    Untyped.convert_into_object 1 {[ 1%positive := {[ "IFoo" := addr 7 ]} ]}
      = Some (tracked, σ1) ∧
    tracked ≠ 1%positive ∧
    σ1 !! tracked = Some {[ "IFoo" := addr 7 ]} ∧
    σ1 !! 1%positive = Some {[ "IFoo" := addr 7 ]} ∧
    Untyped.Dispose tracked σ1 = Some σ2 ∧
    Untyped.convert_then_dispose 1 {[ 1%positive := {[ "IFoo" := addr 7 ]} ]}
      = Some (tracked, σ2) ∧
    σ2 !! tracked = Some ∅ ∧
    σ2 !! 1%positive = Some {[ "IFoo" := addr 7 ]} ∧
    (∀ l, l ≠ tracked →
          σ2 !! l = ({[ 1%positive := {[ "IFoo" := addr 7 ]} ]} : Store InterfaceMap) !! l).
Proof.
  apply (Untyped_Dispose_of_copy {[ 1%positive := {[ "IFoo" := addr 7 ]} ]} 1%positive
           {[ "IFoo" := addr 7 ]}).
  reflexivity.
Defined.

(** * Further properties of the header *)

(** ** Resolution *)

Lemma matches_needs_void v S T E : matches v S T E = true → E = TVoid.
Proof.
  destruct v; simpl; unfold sfinae_matches, enable_if, is_same; intros H.
  - destruct (cond_a S T); [|done]. by apply bool_decide_eq_true in H.
  - apply andb_true_iff in H as [_ H]. by apply bool_decide_eq_true in H.
  - destruct (cond_c S T); [|done]. by apply bool_decide_eq_true in H.
  - apply andb_true_iff in H as [_ H]. by apply bool_decide_eq_true in H.
Qed.

Lemma cond_b_eq S T : cond_b S T = true ↔ T = TPtr S.
Proof. unfold cond_b, is_same. rewrite bool_decide_eq_true. naive_solver. Qed.

Lemma cond_d_eq S T : cond_d S T = true ↔ S = TVoid ∧ T = TPtr TVoid.
Proof.
  unfold cond_d, is_same. rewrite andb_true_iff, !bool_decide_eq_true. done.
Qed.

Lemma cond_a_eq S T : cond_a S T = true ↔ ∃ U, T = TPtr U ∧ U ≠ S.
Proof.
  unfold cond_a, is_same. rewrite andb_true_iff, negb_true_iff, bool_decide_eq_false.
  split.
  - intros [Hp Hne]. destruct T; try done. exists T. split; [done|]. congruence.
  - intros (U & -> & Hne). split; [done|]. congruence.
Qed.

(** An [Enable] argument other than [void], passed explicitly, bypasses every
    specialisation: the customizer is the empty primary template whatever
    [S] and [T] are. *)
Theorem explicit_Enable_is_Primary (S T E : CppType) :
  E ≠ TVoid →
  ServiceTrackerCustomizer S T E = Primary ∧ matching S T E = [].
Proof.
  intros HE.
  assert (∀ v, matches v S T E = false) as Hno.
  { intros v. destruct (matches v S T E) eqn:Hm; [|done].
    by apply matches_needs_void in Hm. }
  unfold ServiceTrackerCustomizer, matching, partial_specializations.
  rewrite (Hno VariantD). simpl.
  rewrite !filter_cons, filter_nil.
  repeat case_decide; try done;
    match goal with H : matches ?v S T E = true |- _ =>
      rewrite (Hno v) in H; discriminate H end.
Qed.

Lemma explicit_Enable_is_Primary_witness :
  ServiceTrackerCustomizer Foo (TPtr Foo) TInt = Primary ∧
  matching Foo (TPtr Foo) TInt = [].
Proof. apply (explicit_Enable_is_Primary Foo (TPtr Foo) TInt). discriminate. Defined.

Lemma resolved_Bound_matches S T E v :
  ServiceTrackerCustomizer S T E = Bound v → matches v S T E = true.
Proof.
  intros Hres. unfold ServiceTrackerCustomizer in Hres.
  destruct (matches VariantD S T E) eqn:Hd; [by inversion Hres; subst|].
  destruct (filter _ partial_specializations) as [|w [|w' l]] eqn:Hf; try done.
  inversion Hres; subst.
  assert (v ∈ filter (λ v, matches v S T E = true) partial_specializations) as Hin
    by (rewrite Hf; apply list_elem_of_here).
  by apply list_elem_of_filter in Hin as [? _].
Qed.

(** With [Enable] left at its default, the bundle is read off the shape of
    the pair: (d) for [<void, void*>], (b) for [T = S*] with [S] not [void],
    (a) for a pointer to anything but [S], (c) for a non-pointer that can be
    value-initialised and turned into [bool]. *)
Theorem resolution_by_shape (S T : CppType) :
  (ServiceTrackerCustomizer2 S T = Bound VariantD ↔ S = TVoid ∧ T = TPtr TVoid) ∧
  (ServiceTrackerCustomizer2 S T = Bound VariantB ↔ T = TPtr S ∧ S ≠ TVoid) ∧
  (ServiceTrackerCustomizer2 S T = Bound VariantA ↔ ∃ U, T = TPtr U ∧ U ≠ S) ∧
  (ServiceTrackerCustomizer2 S T = Bound VariantC ↔
     is_pointer T = false ∧ is_constructible T = true ∧
     (is_convertible_bool T || is_constructible_bool_from T) = true).
Proof.
  rewrite resolve2_spec.
  pose proof (cond_a_b_disjoint S T) as Hab.
  pose proof (cond_a_c_disjoint S T) as Hac.
  pose proof (cond_b_c_disjoint S T) as Hbc.
  pose proof (cond_a_d_disjoint S T) as Had.
  pose proof (cond_c_d_disjoint S T) as Hcd.
  pose proof (cond_d_in_b S T) as Hdb.
  rewrite <- cond_d_eq, <- cond_a_eq.
  assert (cond_c S T = true ↔
          is_pointer T = false ∧ is_constructible T = true ∧
          (is_convertible_bool T || is_constructible_bool_from T) = true) as Hc.
  { unfold cond_c. rewrite !andb_true_iff, negb_true_iff. tauto. }
  rewrite <- Hc.
  assert (T = TPtr S ∧ S ≠ TVoid ↔ cond_b S T = true ∧ cond_d S T = false) as Hb.
  { rewrite <- cond_b_eq. rewrite Hdb.
    destruct (cond_b S T); simpl; [|intuition discriminate].
    unfold is_same. rewrite bool_decide_eq_false. tauto. }
  rewrite Hb.
  destruct (cond_d S T), (cond_a S T), (cond_b S T), (cond_c S T);
    simpl in *; try discriminate; intuition (discriminate || congruence).
Qed.

(** Every pointer type can be tracked, for every service type: the
    customizer is bound to (a), (b) or (d), never to (c) and never left
    empty, so its [TypeTraits] can be named. *)
Theorem pointer_tracked_type_is_supported (S T : CppType) :
  is_pointer T = true →
  ∃ v, ServiceTrackerCustomizer2 S T = Bound v ∧ v ≠ VariantC ∧
       lookup_member (ServiceTrackerCustomizer2 S T) "TypeTraits" = BuildOk.
Proof.
  intros Hp. rewrite resolve2_spec.
  assert (cond_a S T = negb (cond_b S T)) as Ha
    by (unfold cond_a, cond_b; by rewrite Hp).
  rewrite Ha.
  destruct (cond_d S T); [by exists VariantD|].
  destruct (cond_b S T); simpl; [by exists VariantB | by exists VariantA].
Qed.

Lemma pointer_tracked_type_is_supported_witness :
  ∃ v, ServiceTrackerCustomizer2 TVoid (TPtr Bar) = Bound v ∧ v ≠ VariantC ∧
       lookup_member (ServiceTrackerCustomizer2 TVoid (TPtr Bar)) "TypeTraits" = BuildOk.
Proof. apply (pointer_tracked_type_is_supported TVoid (TPtr Bar)). reflexivity. Defined.

(** For a tracked type that is not a pointer the service type plays no part:
    the customizer is (c) or the empty primary template, the same for every
    [S]. *)
Theorem non_pointer_ignores_service_type (S S' T : CppType) :
  is_pointer T = false →
  ServiceTrackerCustomizer2 S T = ServiceTrackerCustomizer2 S' T ∧
  (ServiceTrackerCustomizer2 S T = Bound VariantC ∨
   ServiceTrackerCustomizer2 S T = Primary).
Proof.
  intros Hp.
  assert (∀ R, ServiceTrackerCustomizer2 R T =
               if cond_c R T then Bound VariantC else Primary) as Hres.
  { intros R. rewrite resolve2_spec.
    assert (cond_b R T = false) as Hb.
    { destruct (cond_b R T) eqn:Hb; [|done].
      apply cond_b_is_pointer in Hb. congruence. }
    rewrite cond_d_in_b, Hb. simpl.
    unfold cond_a. by rewrite Hp. }
  rewrite !Hres. split.
  - done.
  - destruct (cond_c S T); auto.
Qed.

Lemma non_pointer_ignores_service_type_witness :
  ServiceTrackerCustomizer2 Foo Handle = ServiceTrackerCustomizer2 TVoid Handle ∧
  (ServiceTrackerCustomizer2 Foo Handle = Bound VariantC ∨
   ServiceTrackerCustomizer2 Foo Handle = Primary).
Proof. apply (non_pointer_ignores_service_type Foo TVoid Handle). reflexivity. Defined.

(** ** Typedefs and signatures *)

Lemma resolved_typedefs_inv S T td :
  resolved_typedefs S T = Some td →
  ∃ v, ServiceTrackerCustomizer2 S T = Bound v ∧ td = typedefs v S T.
Proof.
  unfold resolved_typedefs.
  destruct (ServiceTrackerCustomizer2 S T) as [|v|]; try done.
  intros [= <-]. by exists v.
Qed.

(** Whatever specialisation is bound, its typedefs [ServiceType] and
    [TrackedType] are the template arguments [S] and [T] themselves, and
    [ServiceReferenceType] is [ServiceReference<S>], also where the header
    writes them as [S*] or as [void] and [void*]. *)
Theorem typedefs_name_the_arguments (S T : CppType) (td : Typedefs) :
  resolved_typedefs S T = Some td →
  ServiceType td = Ty S ∧ TrackedType td = Ty T ∧
  ServiceReferenceType td = ServiceReferenceTy S.
Proof.
  intros (v & Hv & ->)%resolved_typedefs_inv.
  apply resolved_Bound_matches in Hv. rewrite matches_void in Hv.
  destruct v; simpl; try done.
  - apply cond_b_eq in Hv as ->. done.
  - apply cond_d_eq in Hv as [-> ->]. done.
Qed.

Lemma typedefs_name_the_arguments_witness :
  ServiceType (typedefs VariantB Foo (TPtr Foo)) = Ty Foo ∧
  TrackedType (typedefs VariantB Foo (TPtr Foo)) = Ty (TPtr Foo) ∧
  ServiceReferenceType (typedefs VariantB Foo (TPtr Foo)) = ServiceReferenceTy Foo.
Proof.
  apply (typedefs_name_the_arguments Foo (TPtr Foo)). reflexivity.
Defined.

(** What [AddingService] returns and what the other callbacks take: for
    every bound pair other than [<void, void*>] the return type is [T]
    itself and the argument type is [T] for a pointer and [T&] otherwise;
    for [<void, void*>] they are [InterfaceMap] and [const InterfaceMap&],
    not the tracked type [void*]. *)
Theorem tracked_return_and_arg_types (S T : CppType) (td : Typedefs) :
  resolved_typedefs S T = Some td →
  if cond_d S T
  then TrackedReturnType td = InterfaceMapTy ∧
       TrackedArgType td = ConstLRef InterfaceMapTy ∧
       TrackedReturnType td ≠ TrackedType td
  else TrackedReturnType td = Ty T ∧
       TrackedArgType td = (if is_pointer T then Ty T else LRef (Ty T)).
Proof.
  intros (v & Hv & ->)%resolved_typedefs_inv.
  pose proof Hv as Hm. apply resolved_Bound_matches in Hm.
  rewrite matches_void in Hm.
  rewrite resolve2_spec in Hv.
  destruct (cond_d S T) eqn:Hd.
  - by inversion Hv; subst.
  - destruct v; simpl.
    + unfold cond_a in Hm. apply andb_true_iff in Hm as [-> _]. done.
    + apply cond_b_eq in Hm as ->. done.
    + unfold cond_c in Hm. rewrite !andb_true_iff, negb_true_iff in Hm.
      destruct Hm as [[-> _] _]. done.
    + congruence.
Qed.

Lemma tracked_return_and_arg_types_witness :
  TrackedReturnType (typedefs VariantC Foo Handle) = Ty Handle ∧
  TrackedArgType (typedefs VariantC Foo Handle) = LRef (Ty Handle).
Proof.
  apply (tracked_return_and_arg_types Foo Handle). reflexivity.
Defined.

(** In every bound specialisation [ConvertToTrackedType] takes
    [detail::ServiceArg<S>::type]: (a) and (c) say so, (b) writes [S*] and is
    never bound for [S = void], (d) writes [const InterfaceMap&]. *)
Theorem ConvertToTrackedType_takes_ServiceArg (S T : CppType) (v : Specialization) :
  ServiceTrackerCustomizer2 S T = Bound v →
  ConvertToTrackedType_param v S T = ServiceArg_type S.
Proof.
  intros Hv.
  pose proof Hv as Hm. apply resolved_Bound_matches in Hm.
  rewrite matches_void in Hm.
  rewrite resolve2_spec in Hv.
  destruct v; simpl; try done.
  - destruct (cond_d S T) eqn:Hd; [done|].
    rewrite cond_d_in_b, Hm in Hd. simpl in Hd.
    unfold is_same in Hd. apply bool_decide_eq_false in Hd. by destruct S.
  - apply cond_d_eq in Hm as [-> _]. done.
Qed.

Lemma ConvertToTrackedType_takes_ServiceArg_witness :
  ConvertToTrackedType_param VariantD TVoid (TPtr TVoid) = ServiceArg_type TVoid.
Proof.
  apply (ConvertToTrackedType_takes_ServiceArg TVoid (TPtr TVoid)). reflexivity.
Defined.

(** ** Validity, disposal and conversion together *)

(** In the pointer variants (a) and (b) and in the untyped variant (d) the
    only invalid tracked value is [DefaultValue()]. *)
Theorem invalid_iff_DefaultValue :
  (∀ t, DistinctHandle.IsValid t = false ↔ t = DistinctHandle.DefaultValue) ∧
  (∀ t, SameTypeHandle.IsValid t = false ↔ t = SameTypeHandle.DefaultValue) ∧
  (∀ m, Untyped.IsValid m = false ↔ m = Untyped.DefaultValue).
Proof.
  split_and!.
  - intros t. unfold DistinctHandle.IsValid, DistinctHandle.DefaultValue.
    by rewrite negb_false_iff, bool_decide_eq_true.
  - intros t. unfold SameTypeHandle.IsValid, SameTypeHandle.DefaultValue.
    by rewrite negb_false_iff, bool_decide_eq_true.
  - intros m. unfold Untyped.IsValid, Untyped.DefaultValue, InterfaceMap_empty.
    by rewrite negb_false_iff, bool_decide_eq_true.
Qed.

(** In variant (d) validity looks at the keys only: a map with an entry is
    valid whatever handle the entry holds, a null one included, and it stays
    valid when more entries are added. *)
Theorem Untyped_IsValid_ignores_handles (m : InterfaceMap) (name : string) (p : Pointer) :
  Untyped.IsValid (<[name := p]> m) = true ∧
  Untyped.IsValid {[ name := nullptr ]} = true ∧
  (m !! name = Some p → Untyped.IsValid m = true).
Proof.
  unfold Untyped.IsValid, InterfaceMap_empty.
  rewrite !negb_true_iff, !bool_decide_eq_false.
  split_and!.
  - apply insert_non_empty.
  - apply insert_non_empty.
  - intros Hl ->. by rewrite lookup_empty in Hl.
Qed.

(** The identity conversions of (b) and (d) hand validity through: the
    result is valid exactly when the argument is a non-null pointer, or a
    non-empty map; for the null pointer and for the empty map the result is
    [DefaultValue()], the value that declines tracking. *)
Theorem ConvertToTrackedType_validity :
  (∀ s, ∃ r, SameTypeHandle.ConvertToTrackedType s = Return r ∧
             (SameTypeHandle.IsValid r = true ↔ s ≠ nullptr)) ∧
  SameTypeHandle.ConvertToTrackedType nullptr = Return SameTypeHandle.DefaultValue ∧
  (∀ im, ∃ r, Untyped.ConvertToTrackedType im = Return r ∧
              (Untyped.IsValid r = true ↔ im ≠ ∅)) ∧
  Untyped.ConvertToTrackedType ∅ = Return Untyped.DefaultValue.
Proof.
  split_and!; try done.
  - intros s. exists s. split; [done|].
    unfold SameTypeHandle.IsValid.
    by rewrite negb_true_iff, bool_decide_eq_false.
  - intros im. exists im. split; [done|].
    unfold Untyped.IsValid, InterfaceMap_empty.
    by rewrite negb_true_iff, bool_decide_eq_false.
Qed.

(** [Dispose] of (a) and (b) writes the one object it is given: every other
    object keeps its content and no object appears or disappears. *)
Theorem handle_Dispose_frame (σ : Store Pointer) (t : loc) (v : Pointer) :
  σ !! t = Some v →
  ∃ σ', DistinctHandle.Dispose t σ = Some σ' ∧
        SameTypeHandle.Dispose t σ = Some σ' ∧
        (∀ l, l ≠ t → σ' !! l = σ !! l) ∧
        dom σ' = dom σ.
Proof.
  intros H. destruct (handle_Dispose_lookup t v σ H) as [Ha Hb].
  exists (<[t := nullptr]> σ). split_and!; try done.
  - intros l Hl. by rewrite lookup_insert_ne.
  - apply dom_insert_lookup_L. by exists v.
Qed.

Lemma handle_Dispose_frame_witness :
  ∃ σ', DistinctHandle.Dispose 1 {[ 1%positive := addr 5; 2%positive := addr 6 ]} = Some σ' ∧
        SameTypeHandle.Dispose 1 {[ 1%positive := addr 5; 2%positive := addr 6 ]} = Some σ' ∧
        (∀ l, l ≠ 1%positive →
           σ' !! l = ({[ 1%positive := addr 5; 2%positive := addr 6 ]} : Store Pointer) !! l) ∧
        dom σ' = dom ({[ 1%positive := addr 5; 2%positive := addr 6 ]} : Store Pointer).
Proof.
  apply (handle_Dispose_frame {[ 1%positive := addr 5; 2%positive := addr 6 ]}
           1%positive (addr 5)).
  reflexivity.
Defined.

(** [Dispose] of (d) clears the one map it is given: every other map keeps
    its entries and no object appears or disappears. *)
Theorem Untyped_Dispose_frame (σ : Store InterfaceMap) (t : loc) (m : InterfaceMap) :
  σ !! t = Some m →
  ∃ σ', Untyped.Dispose t σ = Some σ' ∧
        (∀ l, l ≠ t → σ' !! l = σ !! l) ∧
        dom σ' = dom σ.
Proof.
  intros H. exists (<[t := ∅]> σ). split_and!.
  - by apply (Untyped_Dispose_lookup t m).
  - intros l Hl. by rewrite lookup_insert_ne.
  - apply dom_insert_lookup_L. by exists m.
Qed.

Lemma Untyped_Dispose_frame_witness :
  ∃ σ', Untyped.Dispose 1 {[ 1%positive := {[ "IFoo" := addr 5 ]}; 2%positive := ∅ ]} = Some σ' ∧
        (∀ l, l ≠ 1%positive →
           σ' !! l = ({[ 1%positive := {[ "IFoo" := addr 5 ]}; 2%positive := ∅ ]}
                        : Store InterfaceMap) !! l) ∧
        dom σ' = dom ({[ 1%positive := {[ "IFoo" := addr 5 ]}; 2%positive := ∅ ]}
                        : Store InterfaceMap).
Proof.
  apply (Untyped_Dispose_frame
           {[ 1%positive := {[ "IFoo" := addr 5 ]}; 2%positive := ∅ ]}
           1%positive {[ "IFoo" := addr 5 ]}).
  reflexivity.
Defined.

(** A disposed tracked value is invalid in (a), (b) and (d), whatever it was
    before. *)
Theorem disposed_is_invalid :
  (∀ (σ : Store Pointer) (t : loc) (v : Pointer), σ !! t = Some v →
     DistinctHandle.IsValid <$> after_Dispose DistinctHandle.Dispose t σ = Some false ∧
     SameTypeHandle.IsValid <$> after_Dispose SameTypeHandle.Dispose t σ = Some false) ∧
  (∀ (σ : Store InterfaceMap) (t : loc) (m : InterfaceMap), σ !! t = Some m →
     Untyped.IsValid <$> after_Dispose Untyped.Dispose t σ = Some false).
Proof.
  split.
  - intros σ t v H. unfold after_Dispose.
    destruct (handle_Dispose_lookup t v σ H) as [-> ->]. simpl.
    split; by rewrite lookup_insert_eq.
  - intros σ t m H. unfold after_Dispose.
    rewrite (Untyped_Dispose_lookup t m σ H). simpl.
    by rewrite lookup_insert_eq.
Qed.

Lemma disposed_is_invalid_witness :
  SameTypeHandle.IsValid <$>
    after_Dispose SameTypeHandle.Dispose 1 {[ 1%positive := addr 5 ]} = Some false ∧
  Untyped.IsValid <$>
    after_Dispose Untyped.Dispose 1 {[ 1%positive := {[ "IFoo" := addr 5 ]} ]} = Some false.
Proof.
  destruct disposed_is_invalid as [Hh Hu]. split.
  - apply (Hh {[ 1%positive := addr 5 ]} 1%positive (addr 5)). reflexivity.
  - apply (Hu {[ 1%positive := {[ "IFoo" := addr 5 ]} ]} 1%positive
              {[ "IFoo" := addr 5 ]}). reflexivity.
Defined.

(** In variant (c) [Dispose] never invalidates: the tracked value is as
    valid after the call as before, for every tracked type, and the store is
    the one before the call. *)
Theorem BoolValue_Dispose_keeps_validity (T : Type) (HT : BoolConvertible T)
    (σ : Store T) (t : loc) (v : T) :
  σ !! t = Some v →
  BoolValue.IsValid <$> after_Dispose BoolValue.Dispose t σ = Some (BoolValue.IsValid v) ∧
  BoolValue.Dispose t σ = Some σ.
Proof. intros H. unfold after_Dispose. simpl. by rewrite H. Qed.

Lemma BoolValue_Dispose_keeps_validity_witness :
  BoolValue.IsValid <$>
    after_Dispose BoolValue.Dispose 1 ({[ 1%positive := 7%Z ]} : Store Z)
    = Some (BoolValue.IsValid 7%Z) ∧
  BoolValue.Dispose 1 ({[ 1%positive := 7%Z ]} : Store Z) = Some {[ 1%positive := 7%Z ]}.
Proof.
  apply (BoolValue_Dispose_keeps_validity Z _ {[ 1%positive := 7%Z ]} 1%positive 7%Z).
  reflexivity.
Defined.

(** ** Which pairs get a default conversion *)


